(** * utilpkg: the reaction paginator and the configuration loader

    A shallow embedding of the two Go source files of the repository:
    the paginator of package [botutil] and [GetConfig] / [genConfig] of
    package [utilpkg], followed by the properties of the specification
    that can be settled on them.

    Conventions of the embedding.
    - A Go [int] is a [Z] kept in the signed 64-bit range by [wrap64].
    - A [*dg.MessageEmbed] is a location [loc]; the embeds live in a heap
      [gmap loc MessageEmbed].  A location the heap does not hold plays the
      nil pointer: dereferencing it panics.
    - The Discord session [p.s] is a record of answer functions.  Every
      call made through it is appended, with its answer, to a trace of
      events, and the answer may depend on the trace so far.
    - A method of [*Paginator] takes the paginator and the trace and gives
      back both together with what the method returned (an [error], or a
      run-time panic). *)

From Stdlib Require Import ZArith List Lia DecimalString.
From stdpp Require Import gmap strings list.

Module botutil.

(** ** Data *)

Definition loc := positive.

Record MessageEmbedFooter := mkFooter {
  Text : string;
  IconURL : string;
  ProxyIconURL : string
}.

(** The fields of discordgo's embed that a page carries; [Footer] is the
    only one the paginator writes. *)
Record MessageEmbed := mkEmbed {
  Title : string;
  Description : string;
  Color : Z;
  Footer : option MessageEmbedFooter;
  Fields : list (string * string)
}.

Record Message := mkMessage {
  ID : string;
  ChannelID : string
}.

Record ControlEmojis := mkControlEmojis {
  toBegin : string;
  backwards : string;
  forwards : string;
  toEnd : string;
  stop : string
}.

(** One call made through the session, with the answer it got. *)
Inductive Event :=
| EvSend (channel : string) (embed : loc) (res : Message + string)
| EvEdit (first second : string) (embed : loc) (err : option string)
| EvReactionAdd (channel messageID emoji : string) (err : option string)
| EvReactionsRemoveAll (channel messageID : string) (err : option string).

(** [*dg.Session]: what the platform answers to each call, given the calls
    made so far. *)
Record Session := mkSession {
  ChannelMessageSendComplex : list Event -> string -> loc -> Message + string;
  ChannelMessageEditComplex : list Event -> string -> string -> loc -> option string;
  MessageReactionAdd : list Event -> string -> string -> string -> option string;
  MessageReactionsRemoveAll : list Event -> string -> string -> option string
}.

Record Paginator := mkPaginator {
  message : option Message;
  channelID : string;
  pages : list loc;
  controlEmojis : ControlEmojis;
  index : Z;
  s : Session;
  reactionsRemoved : bool;
  user : loc;
  timeOut : Z;
  active : bool
}.

Definition set_message (p : Paginator) (m : option Message) : Paginator :=
  mkPaginator m (channelID p) (pages p) (controlEmojis p) (index p) (s p)
    (reactionsRemoved p) (user p) (timeOut p) (active p).

Definition set_pages (p : Paginator) (ps : list loc) : Paginator :=
  mkPaginator (message p) (channelID p) ps (controlEmojis p) (index p) (s p)
    (reactionsRemoved p) (user p) (timeOut p) (active p).

Definition set_index (p : Paginator) (i : Z) : Paginator :=
  mkPaginator (message p) (channelID p) (pages p) (controlEmojis p) i (s p)
    (reactionsRemoved p) (user p) (timeOut p) (active p).

Definition set_reactionsRemoved (p : Paginator) (b : bool) : Paginator :=
  mkPaginator (message p) (channelID p) (pages p) (controlEmojis p) (index p) (s p)
    b (user p) (timeOut p) (active p).

Definition set_active (p : Paginator) (b : bool) : Paginator :=
  mkPaginator (message p) (channelID p) (pages p) (controlEmojis p) (index p) (s p)
    (reactionsRemoved p) (user p) (timeOut p) b.

(** ** Errors and results *)

(** [paginatorError] is the error type of the package; an error coming
    back from the session is kept by its text. *)
Inductive error :=
| paginatorError (failingFunction failingReason : string)
| platformError (text : string).

Definition newline : string := String (Ascii.ascii_of_nat 10) EmptyString.

Definition Error (err : error) : string :=
  match err with
  | paginatorError f r =>
      ("Function " ++ f ++ " failed because:" ++ newline ++ " " ++ r)%string
  | platformError t => t
  end.

Inductive outcome :=
| Return (err : option error)
| Panic.

Record result := mkResult {
  after : Paginator;
  calls : list Event;
  ret : outcome
}.

(** ** Integers *)

Definition wrap64 (z : Z) : Z := ((z + 2 ^ 63) mod 2 ^ 64 - 2 ^ 63)%Z.

Definition len (ps : list loc) : Z := Z.of_nat (length ps).

(** [p.pages[i]]: [None] is the index-out-of-range panic. *)
Definition pageAt (ps : list loc) (i : Z) : option loc :=
  if ((0 <=? i) && (i <? len ps))%Z then ps !! Z.to_nat i else None.

(** [fmt.Sprintf("%d", z)]. *)
Definition sprintd (z : Z) : string := NilZero.string_of_int (Z.to_int z).

(** ** Navigation *)

(** [updatePaginatorMessage]: reads [p.message.ID] (a nil [p.message]
    panics), builds the edit from [(p.message.ID, p.channelID)] in the order
    the source passes them, and returns the session's error. *)
Definition updatePaginatorMessage (p : Paginator) (t : list Event) (e : loc) : result :=
  match message p with
  | None => mkResult p t Panic
  | Some m =>
      let err := ChannelMessageEditComplex (s p) t (ID m) (channelID p) e in
      mkResult p (t ++ [EvEdit (ID m) (channelID p) e err])
        (Return (platformError <$> err))
  end.

(** The tail shared by the four moves: [return
    p.updatePaginatorMessage(p.pages[p.index])], the index already
    written. *)
Definition showCurrent (p : Paginator) (t : list Event) : result :=
  match pageAt (pages p) (index p) with
  | None => mkResult p t Panic
  | Some e => updatePaginatorMessage p t e
  end.

Definition nextPage (p : Paginator) (t : list Event) : result :=
  if (index p =? wrap64 (len (pages p) + 1))%Z then
    mkResult p t
      (Return (Some (paginatorError "nextPage" "Page index is already max.")))
  else showCurrent (set_index p (wrap64 (index p + 1))) t.

Definition previousPage (p : Paginator) (t : list Event) : result :=
  if (index p =? 0)%Z then
    mkResult p t
      (Return (Some (paginatorError "previousPage" "Page index is north.")))
  else showCurrent (set_index p (wrap64 (index p - 1))) t.

Definition firstPage (p : Paginator) (t : list Event) : result :=
  if (index p =? 0)%Z then
    mkResult p t
      (Return (Some (paginatorError "previousPage" "Page index is north.")))
  else showCurrent (set_index p 0) t.

Definition lastPage (p : Paginator) (t : list Event) : result :=
  if (index p =? 0)%Z then
    mkResult p t
      (Return (Some (paginatorError "previousPage" "Page index is already max.")))
  else showCurrent (set_index p (wrap64 (len (pages p) - 1))) t.

(** ** Construction *)

Definition NewPaginator (s : Session) (channelID : string) (user : loc)
    (controlEmojis : ControlEmojis) (timeOut : Z) : Paginator :=
  mkPaginator None channelID [] controlEmojis 0 s false user timeOut false.

Section Add.

(** [verifyEmbed] is called by [Add] and defined outside the two source
    files; [Add] is modelled for any such check. *)
Variable verifyEmbed : gmap loc MessageEmbed -> loc -> option error.

Definition Add (p : Paginator) (h : gmap loc MessageEmbed) (e : loc)
    : Paginator * option error :=
  match verifyEmbed h e with
  | Some err => (p, Some err)
  | None => (set_pages p (pages p ++ [e]), None)
  end.

End Add.

(** ** Closing *)

Definition close (p : Paginator) (t : list Event) : result :=
  let p := set_active p false in
  if reactionsRemoved p then mkResult p t (Return None)
  else
    match message p with
    | None => mkResult p t Panic
    | Some m =>
        let err := MessageReactionsRemoveAll (s p) t (channelID p) (ID m) in
        let p' := match err with
                  | None => set_reactionsRemoved p true
                  | Some _ => p
                  end in
        mkResult p' (t ++ [EvReactionsRemoveAll (channelID p) (ID m) err])
          (Return (platformError <$> err))
    end.

(** [close] called [n] times in a row; the results of all the calls, the
    first call first. *)
Fixpoint closeTimes (n : nat) (p : Paginator) (t : list Event) : list result :=
  match n with
  | O => []
  | S n' => let r := close p t in r :: closeTimes n' (after r) (calls r)
  end.

(** ** Run *)

(** [Run] up to its [for { select ... }] loop: either it has returned
    ([inl]), or the first page is sent and it waits ([inr], the paginator
    and the trace at that point). *)
Definition RunEnter (p : Paginator) (t : list Event)
    : result + Paginator * list Event :=
  if active p then
    inl (mkResult p t
           (Return (Some (paginatorError "Run" "Paginator is already running."))))
  else if (len (pages p) =? 0)%Z then
    inl (mkResult p t
           (Return (Some (paginatorError "Run" "No pages found in paginator.pages"))))
  else
    match pageAt (pages p) (index p) with
    | None => inl (mkResult p t Panic)
    | Some e =>
        let res := ChannelMessageSendComplex (s p) t (channelID p) e in
        let t' := t ++ [EvSend (channelID p) e res] in
        match res with
        | inr err => inl (mkResult p t' (Return (Some (paginatorError "Run" err))))
        | inl msg => inr (set_active (set_message p (Some msg)) true, t')
        end
    end.

(** The loop has one case, the timer set to what is left of [timeOut]
    since the start; when it fires [Run] returns [p.close()].  Nothing else
    in the package runs meanwhile. *)
Definition Run (p : Paginator) (t : list Event) : result :=
  match RunEnter p t with
  | inl r => r
  | inr (p', t') => close p' t'
  end.

(** ** Reactions *)

(** The fields of the struct in declaration order, as
    [reflect.ValueOf(p.controlEmojis).Field(i)] walks them. *)
Definition emojiFields (c : ControlEmojis) : list string :=
  [toBegin c; backwards c; forwards c; toEnd c; stop c].

Fixpoint addReactionsLoop (p : Paginator) (t : list Event) (emojis : list string)
    : result :=
  match emojis with
  | [] => mkResult p t (Return None)
  | e :: rest =>
      match message p with
      | None => mkResult p t Panic
      | Some m =>
          let err := MessageReactionAdd (s p) t (channelID p) (ID m) e in
          let t' := t ++ [EvReactionAdd (channelID p) (ID m) e err] in
          match err with
          | Some x => mkResult p t' (Return (Some (platformError x)))
          | None => addReactionsLoop p t' rest
          end
      end
  end.

Definition addReactions (p : Paginator) (t : list Event) : result :=
  addReactionsLoop p t (emojiFields (controlEmojis p)).

Definition isPaginatorUser (p : Paginator) (u : loc) : bool :=
  if decide (u = user p) then true else false.

(** ** Page numbers *)

Definition set_Footer (e : MessageEmbed) (f : option MessageEmbedFooter) : MessageEmbed :=
  mkEmbed (Title e) (Description e) (Color e) f (Fields e).

Definition pageNumberText (p : Paginator) : string :=
  (sprintd (wrap64 (index p + 1)) ++ "/" ++ sprintd (len (pages p)))%string.

(** The [range] loop of [setPageNumber]: each element is dereferenced and
    its [Footer] overwritten with a fresh footer holding only [Text]. *)
Fixpoint setFooters (text : string) (ps : list loc) (h : gmap loc MessageEmbed)
    : gmap loc MessageEmbed * outcome :=
  match ps with
  | [] => (h, Return None)
  | l :: rest =>
      match h !! l with
      | None => (h, Panic)
      | Some e =>
          setFooters text rest
            (<[l := set_Footer e (Some (mkFooter text "" ""))]> h)
      end
  end.

Definition setPageNumber (p : Paginator) (h : gmap loc MessageEmbed)
    : gmap loc MessageEmbed * outcome :=
  if (len (pages p) =? 0)%Z then
    (h, Return (Some (paginatorError "setPageNumber" "No pages found in paginator.pages")))
  else setFooters (pageNumberText p) (pages p) h.

(** ** The four moves under one name *)

(** The package has no dispatcher; [move] names the four navigation
    methods so that a property can be stated for any of them.  [guardPasses]
    is the test each method starts with and [target] the value it then
    stores in [p.index], both read off the method bodies. *)
Inductive move := ToBegin | Backwards | Forwards | ToEnd.

Definition navigate (a : move) : Paginator -> list Event -> result :=
  match a with
  | ToBegin => firstPage
  | Backwards => previousPage
  | Forwards => nextPage
  | ToEnd => lastPage
  end.

Definition guardPasses (a : move) (p : Paginator) : bool :=
  match a with
  | Forwards => negb (index p =? wrap64 (len (pages p) + 1))%Z
  | ToBegin | Backwards | ToEnd => negb (index p =? 0)%Z
  end.

Definition target (a : move) (p : Paginator) : Z :=
  match a with
  | ToBegin => 0%Z
  | Backwards => wrap64 (index p - 1)
  | Forwards => wrap64 (index p + 1)
  | ToEnd => wrap64 (len (pages p) - 1)
  end.

Fixpoint navigateAll (l : list move) (p : Paginator) (t : list Event) : list result :=
  match l with
  | [] => []
  | a :: l' => let r := navigate a p t in r :: navigateAll l' (after r) (calls r)
  end.

(** ** Counting calls in a trace *)

Definition isReactionAdd (ev : Event) : bool :=
  match ev with EvReactionAdd _ _ _ _ => true | _ => false end.

Definition isRemoval (ev : Event) : bool :=
  match ev with EvReactionsRemoveAll _ _ _ => true | _ => false end.

Definition isRemovalDone (ev : Event) : bool :=
  match ev with EvReactionsRemoveAll _ _ None => true | _ => false end.

Definition count (f : Event -> bool) (t : list Event) : nat :=
  length (filter (fun ev => f ev = true) t).

End botutil.

Module utilpkg.

(** A file as [ioutil.ReadFile] sees it: its bytes, or the error reading
    it gives. *)
Record File := mkFile {
  data : string;
  readError : option string
}.

Section Config.

(** The value behind [output interface{}], and the YAML library:
    [Unmarshal] may write the value and returns an error or nil, [Marshal]
    gives the bytes or an error.  [writeError] is the error
    [ioutil.WriteFile] gives at a path, if any. *)
Variable Output : Type.
Variable Unmarshal : string -> Output -> Output * option string.
Variable Marshal : Output -> string + string.
Variable writeError : string -> option string.

(** What a call leaves behind and returns: the files, the value behind
    [output], the error. *)
Record outcome := mkOutcome {
  files : gmap string File;
  value : Output;
  err : option string
}.

Definition genConfig (fs : gmap string File) (path : string) (reference : Output)
    : outcome :=
  match Marshal reference with
  | inr e => mkOutcome fs reference (Some e)
  | inl serialized =>
      match writeError path with
      | Some e => mkOutcome fs reference (Some e)
      | None =>
          mkOutcome (<[path := mkFile serialized None]> fs) reference
            (Some "generated a new default configuration")
      end
  end.

(** [os.Stat] fails on a path the file system does not hold. *)
Definition GetConfig (fs : gmap string File) (path : string) (output : Output)
    : outcome :=
  match fs !! path with
  | None => genConfig fs path output
  | Some f =>
      match readError f with
      | Some e => mkOutcome fs output (Some e)
      | None =>
          let '(output', _) := Unmarshal (data f) output in
          mkOutcome fs output' None
      end
  end.

End Config.

End utilpkg.

Import botutil.

(** * Sample sessions and paginators *)

Definition sampleMessage : Message := mkMessage "m1" "c1".

Definition sampleEmojis : ControlEmojis :=
  mkControlEmojis "first" "back" "forward" "end" "stop".

(** Every call succeeds. *)
Definition calmSession : Session :=
  mkSession (fun _ _ _ => inl sampleMessage) (fun _ _ _ _ => None)
    (fun _ _ _ _ => None) (fun _ _ _ => None).

(** Editing a message fails, the rest succeeds. *)
Definition noEditSession : Session :=
  mkSession (fun _ _ _ => inl sampleMessage) (fun _ _ _ _ => Some "edit refused")
    (fun _ _ _ _ => None) (fun _ _ _ => None).

(** Removing the reactions fails, the rest succeeds. *)
Definition noRemovalSession : Session :=
  mkSession (fun _ _ _ => inl sampleMessage) (fun _ _ _ _ => None)
    (fun _ _ _ _ => None) (fun _ _ _ => Some "removal refused").

(** A running paginator on [ps], at index [i], talking to [sess]. *)
Definition running (sess : Session) (ps : list loc) (i : Z) : Paginator :=
  mkPaginator (Some sampleMessage) "c1" ps sampleEmojis i sess false 1%positive
    50000000 true.

(** A paginator as [NewPaginator] and [Add] leave it, pages [ps] added. *)
Definition created (sess : Session) (ps : list loc) : Paginator :=
  set_pages (NewPaginator sess "c1" 1%positive sampleEmojis 50000000) ps.

Definition pageA : MessageEmbed := mkEmbed "A" "first page" 0 None [].
Definition pageB : MessageEmbed := mkEmbed "B" "second page" 0 None [].
Definition pageC : MessageEmbed := mkEmbed "C" "third page" 0 None [].

Definition sampleHeap : gmap loc MessageEmbed :=
  <[1%positive := pageA]> (<[2%positive := pageB]> (<[3%positive := pageC]> ∅)).

(** The footer [setPageNumber] writes on a page. *)
Definition numbered (p : Paginator) (e : MessageEmbed) : MessageEmbed :=
  set_Footer e (Some (mkFooter (pageNumberText p) "" "")).

(** A YAML library that rejects every input and leaves the value alone,
    and a file system holding one readable file that is not YAML. *)
Definition rejectingUnmarshal (bytes : string) (output : nat) : nat * option string :=
  (output, Some "yaml: unmarshal errors").

Definition sampleMarshal (reference : nat) : string + string := inl "0".

Definition sampleFiles : gmap string utilpkg.File :=
  <["config.yml" := utilpkg.mkFile "{ not yaml" None]> ∅.

(** The index is a valid position of the page sequence. *)
Definition inRange (p : Paginator) : Prop :=
  (0 <= index p <= len (pages p) - 1)%Z.

(** An active paginator has pages. *)
Definition coherent (p : Paginator) : Prop :=
  active p = true -> pages p <> [].

(** ** Definitions for the further properties *)

Definition isEdit (ev : Event) : bool :=
  match ev with EvEdit _ _ _ _ => true | _ => false end.

(** [Add] called on each embed of a list in turn, its errors dropped. *)
Fixpoint AddAll (verifyEmbed : gmap loc MessageEmbed -> loc -> option error)
    (p : Paginator) (h : gmap loc MessageEmbed) (es : list loc) : Paginator :=
  match es with
  | [] => p
  | e :: rest => AddAll verifyEmbed (fst (Add verifyEmbed p h e)) h rest
  end.

(** The paginators the package can produce: a new one, and what any method
    leaves behind, the paginator [Run] waits on included. *)
Inductive built : Paginator -> Prop :=
| built_New sess ch u emojis d : built (NewPaginator sess ch u emojis d)
| built_Add verifyEmbed p h e : built p -> built (fst (Add verifyEmbed p h e))
| built_waiting p t p' t' : built p -> RunEnter p t = inr (p', t') -> built p'
| built_Run p t : built p -> built (after (Run p t))
| built_navigate a p t : built p -> built (after (navigate a p t))
| built_addReactions p t : built p -> built (after (addReactions p t))
| built_close p t : built p -> built (after (close p t)).

(** The reaction "forward" is refused, every other call succeeds. *)
Definition forwardRefused : Session :=
  mkSession (fun _ _ _ => inl sampleMessage) (fun _ _ _ _ => None)
    (fun _ _ _ e => if String.eqb e "forward" then Some "unknown emoji" else None)
    (fun _ _ _ => None).

(** The first removal of the reactions is refused, the later ones and
    every other call succeed. *)
Definition removalRefusedOnce : Session :=
  mkSession (fun _ _ _ => inl sampleMessage) (fun _ _ _ _ => None)
    (fun _ _ _ _ => None)
    (fun t _ _ => if (count isRemoval t =? 0)%nat then Some "removal refused" else None).

(** Sending fails, every other call succeeds. *)
Definition noSendSession : Session :=
  mkSession (fun _ _ _ => inr "send refused"%string) (fun _ _ _ _ => None)
    (fun _ _ _ _ => None) (fun _ _ _ => None).

(** A check that refuses the embed at location 2. *)
Definition refuseSecond (h : gmap loc MessageEmbed) (e : loc) : option error :=
  if decide (e = 2%positive) then Some (paginatorError "verifyEmbed" "refused") else None.

(** * Arithmetic and indexing *)

Lemma wrap64_id (z : Z) :
  (- 2 ^ 63 <= z < 2 ^ 63)%Z -> wrap64 z = z.
Proof.
  intros Hz. unfold wrap64.
  rewrite Z.mod_small by lia. lia.
Qed.

Lemma pageAt_None_iff (ps : list loc) (i : Z) :
  pageAt ps i = None <-> (i < 0 \/ len ps <= i)%Z.
Proof.
  unfold pageAt, len.
  destruct (Z.leb_spec 0 i) as [Hlo|Hlo]; simpl.
  - destruct (Z.ltb_spec i (Z.of_nat (length ps))) as [Hhi|Hhi].
    + split; [|lia]. intros Hn.
      apply lookup_ge_None in Hn. lia.
    + split; [lia|reflexivity].
  - split; [lia|reflexivity].
Qed.


(** * Navigation *)

Lemma updatePaginatorMessage_after (p : Paginator) (t : list Event) (e : loc) :
  after (updatePaginatorMessage p t e) = p.
Proof. unfold updatePaginatorMessage. destruct (message p); reflexivity. Qed.

Lemma showCurrent_after (p : Paginator) (t : list Event) :
  after (showCurrent p t) = p.
Proof.
  unfold showCurrent. destruct (pageAt _ _); [apply updatePaginatorMessage_after|reflexivity].
Qed.

(** With a hosted message and the index on a page, the tail of a move is
    one edit, whose error is what the move returns. *)
Lemma showCurrent_edit (p : Paginator) (t : list Event) (m : Message) (e : loc) :
  message p = Some m ->
  pageAt (pages p) (index p) = Some e ->
  showCurrent p t =
    let err := ChannelMessageEditComplex (s p) t (ID m) (channelID p) e in
    mkResult p (t ++ [EvEdit (ID m) (channelID p) e err]) (Return (platformError <$> err)).
Proof.
  intros Hm He. unfold showCurrent, updatePaginatorMessage.
  rewrite He, Hm. reflexivity.
Qed.

Lemma showCurrent_overrun (p : Paginator) (t : list Event) :
  (index p < 0 \/ len (pages p) <= index p)%Z ->
  showCurrent p t = mkResult p t Panic.
Proof.
  intros H. apply pageAt_None_iff in H.
  unfold showCurrent. rewrite H. reflexivity.
Qed.

(** X3.  [nextPage] returns its paginator error exactly when the index is
    [len(p.pages)+1]: the guard fires there and nowhere else. *)
Lemma nextPage_rejects_iff (p : Paginator) (t : list Event) :
  (exists f r, ret (nextPage p t) = Return (Some (paginatorError f r)))
  <-> index p = wrap64 (len (pages p) + 1).
Proof.
  unfold nextPage.
  destruct (Z.eqb_spec (index p) (wrap64 (len (pages p) + 1))) as [Heq|Hne].
  - split; [intros _; exact Heq|]. intros _. simpl. eauto.
  - split; [|intros H; contradiction].
    intros (f & r & H). exfalso.
    unfold showCurrent, updatePaginatorMessage in H.
    destruct (pageAt _ _); [|discriminate].
    destruct (message _); [|discriminate].
    simpl in H. destruct (ChannelMessageEditComplex _ _ _ _ _); discriminate.
Qed.

(** X4.  On the last page [nextPage] passes its guard, stores an index one
    past the end, and panics on [p.pages[p.index]] without a call. *)
Lemma nextPage_on_last_page (p : Paginator) (t : list Event) :
  pages p <> [] ->
  (len (pages p) < 2 ^ 62)%Z ->
  index p = (len (pages p) - 1)%Z ->
  nextPage p t = mkResult (set_index p (len (pages p))) t Panic.
Proof.
  intros Hne Hlen Hidx. unfold nextPage.
  assert (0 < len (pages p))%Z as Hpos.
  { unfold len. destruct (pages p); [contradiction|simpl; lia]. }
  rewrite (wrap64_id (len (pages p) + 1)) by lia.
  destruct (Z.eqb_spec (index p) (len (pages p) + 1)) as [Heq|_]; [lia|].
  rewrite Hidx, wrap64_id by lia.
  replace (len (pages p) - 1 + 1)%Z with (len (pages p)) by lia.
  apply showCurrent_overrun. simpl. lia.
Qed.

(** X5.  [firstPage], [previousPage] and [lastPage] keep a valid index
    valid, whatever the session answers. *)
Lemma other_moves_keep_range (a : move) (p : Paginator) (t : list Event) :
  a <> Forwards ->
  pages p <> [] ->
  (len (pages p) < 2 ^ 62)%Z ->
  inRange p ->
  inRange (after (navigate a p t)).
Proof.
  intros Ha Hne Hlen [Hlo Hhi].
  destruct a; [| |contradiction|]; simpl;
    [unfold firstPage|unfold previousPage|unfold lastPage];
    destruct (Z.eqb_spec (index p) 0) as [Hz|Hz]; simpl;
    try (split; assumption);
    rewrite showCurrent_after; unfold inRange; simpl.
  - lia.
  - rewrite wrap64_id by lia. lia.
  - rewrite wrap64_id by lia. lia.
Qed.

(** C1. The specification wants the index within [[0, len(pages)-1]] after
    every move of every sequence of moves.  On the single page [[1]], at
    index 0, the one move [nextPage] passes its guard (which compares the
    index with [len(p.pages)+1]), stores index 1 and panics on
    [p.pages[1]]: the index has left the range. *)
Theorem nextPage_leaves_range :
  let p := running calmSession [1%positive] 0 in
  inRange p /\
  navigateAll [Forwards] p [] = [mkResult (set_index p 1) [] Panic] /\
  ~ inRange (set_index p 1).
Proof.
  simpl. split; [|split].
  - unfold inRange, len. simpl. lia.
  - reflexivity.
  - unfold inRange, len. simpl. lia.
Qed.

(** C2. The specification's example: pages [[A, B, C]], index 0.  The first
    two [nextPage] calls edit the message and reach index 2; the third is
    not rejected with an error: the guard looks for index 4, so the call
    stores index 3 and panics, issuing no edit. *)
Theorem nextPage_three_pages :
  let p := running calmSession [1%positive; 2%positive; 3%positive] 0 in
  let r1 := nextPage p [] in
  let r2 := nextPage (after r1) (calls r1) in
  let r3 := nextPage (after r2) (calls r2) in
  (index (after r1) = 1%Z /\ ret r1 = Return None) /\
  (index (after r2) = 2%Z /\ ret r2 = Return None) /\
  (index (after r3) = 3%Z /\ ret r3 = Panic /\ calls r3 = calls r2) /\
  calls r2 = [EvEdit "m1" "c1" 2%positive None; EvEdit "m1" "c1" 3%positive None].
Proof. simpl. repeat split; reflexivity. Qed.

(** At index 0 [lastPage] returns an error before touching the index. *)
Lemma lastPage_at_zero (p : Paginator) (t : list Event) :
  index p = 0%Z ->
  lastPage p t =
    mkResult p t (Return (Some (paginatorError "previousPage" "Page index is already max."))).
Proof. intros H. unfold lastPage. rewrite H. reflexivity. Qed.

(** C4. The specification wants [last] to set the index to [pageCount-1]
    from any index.  On two pages at index 0, [lastPage] tests
    [p.index == 0], returns the error whose reason reads "Page index is
    already max." and leaves the index at 0, not 1; no edit is issued. *)
Theorem lastPage_stuck_at_zero :
  let p := running calmSession [1%positive; 2%positive] 0 in
  lastPage p [] =
    mkResult p [] (Return (Some (paginatorError "previousPage" "Page index is already max.")))
  /\ index (after (lastPage p [])) = 0%Z
  /\ (len (pages p) - 1 = 1)%Z.
Proof. simpl. repeat split; reflexivity. Qed.




(** C5, as stated, fails: the guard of [nextPage] passes, the edit fails,
    the error comes back, and the index has moved from 0 to 1. *)
Lemma nextPage_failed_edit_moves_index :
  let p := running noEditSession [1%positive; 2%positive] 0 in
  let r := nextPage p [] in
  guardPasses Forwards p = true /\
  ret r = Return (Some (platformError "edit refused")) /\
  index p = 0%Z /\ index (after r) = 1%Z.
Proof. simpl. repeat split; reflexivity. Qed.

(** C5, amended.  For each of the four moves, when the guard passes and the
    target is the position of a page, the target is stored in the index
    first and the page there is then handed to the edit; the edit's error
    is returned, and the index holds the target whether the edit succeeded
    or failed.  Nothing else of the paginator changes. *)
Theorem navigate_commits_then_edits (a : move) (p : Paginator) (t : list Event)
    (m : Message) (e : loc) :
  message p = Some m ->
  guardPasses a p = true ->
  pageAt (pages p) (target a p) = Some e ->
  navigate a p t =
    let err := ChannelMessageEditComplex (s p) t (ID m) (channelID p) e in
    mkResult (set_index p (target a p)) (t ++ [EvEdit (ID m) (channelID p) e err])
      (Return (platformError <$> err)).
Proof.
  intros Hm Hg He.
  destruct a; simpl in *;
    [unfold firstPage|unfold previousPage|unfold nextPage|unfold lastPage];
    apply negb_true_iff in Hg; rewrite Hg;
    rewrite (showCurrent_edit _ t m e) by (simpl; assumption);
    reflexivity.
Qed.

Lemma navigate_commits_then_edits_witness :
  let p := running noEditSession [1%positive; 2%positive; 3%positive] 1 in
  navigate Backwards p [] =
    mkResult (set_index p 0) [EvEdit "m1" "c1" 1%positive (Some "edit refused")]
      (Return (Some (platformError "edit refused"))).
Proof.
  exact (navigate_commits_then_edits Backwards
           (running noEditSession [1%positive; 2%positive; 3%positive] 1) []
           sampleMessage 1%positive eq_refl eq_refl eq_refl).
Defined.

(** * Run *)

(** C6.  [Run] on an active paginator returns the "already running" error,
    and on an inactive paginator with no pages the "no pages" error (the
    active test comes first).  In both cases the paginator that comes back
    is the one that went in (index, active, pages and message included)
    and the trace is unchanged: nothing was sent. *)
Theorem Run_rejected_without_effects (p : Paginator) (t : list Event) :
  (active p = true ->
   Run p t =
     mkResult p t (Return (Some (paginatorError "Run" "Paginator is already running.")))) /\
  (active p = false -> pages p = [] ->
   Run p t =
     mkResult p t (Return (Some (paginatorError "Run" "No pages found in paginator.pages")))).
Proof.
  split.
  - intros Ha. unfold Run, RunEnter. rewrite Ha. reflexivity.
  - intros Ha Hp. unfold Run, RunEnter. rewrite Ha, Hp. reflexivity.
Qed.

Lemma Run_rejected_without_effects_witness :
  Run (running calmSession [1%positive] 0) [] =
    mkResult (running calmSession [1%positive] 0) []
      (Return (Some (paginatorError "Run" "Paginator is already running.")))
  /\
  Run (created calmSession []) [] =
    mkResult (created calmSession []) []
      (Return (Some (paginatorError "Run" "No pages found in paginator.pages"))).
Proof.
  split.
  - exact (proj1 (Run_rejected_without_effects (running calmSession [1%positive] 0) [])
             eq_refl).
  - exact (proj2 (Run_rejected_without_effects (created calmSession []) [])
             eq_refl eq_refl).
Defined.

(** An active paginator always has pages: the constructor, [Add], [Run],
    the moves and [close] keep [coherent], so that the two rejections of
    [Run] never compete on a paginator the package has built. *)
Lemma NewPaginator_coherent sess ch u emojis d :
  coherent (NewPaginator sess ch u emojis d).
Proof. unfold coherent. simpl. discriminate. Qed.

Lemma Add_coherent verifyEmbed (p : Paginator) h (e : loc) :
  coherent p -> coherent (fst (Add verifyEmbed p h e)).
Proof.
  unfold coherent, Add. intros Hc.
  destruct (verifyEmbed h e); simpl; [exact Hc|].
  intros _ Happ. apply app_eq_nil in Happ. destruct Happ; discriminate.
Qed.

Lemma close_inactive (p : Paginator) (t : list Event) :
  active (after (close p t)) = false.
Proof.
  unfold close. simpl.
  destruct (reactionsRemoved p); [reflexivity|].
  destruct (message p); [|reflexivity].
  simpl. destruct (MessageReactionsRemoveAll _ _ _ _); reflexivity.
Qed.

Lemma close_coherent (p : Paginator) (t : list Event) :
  coherent (after (close p t)).
Proof. unfold coherent. rewrite close_inactive. discriminate. Qed.

Lemma navigate_coherent (a : move) (p : Paginator) (t : list Event) :
  coherent p -> coherent (after (navigate a p t)).
Proof.
  intros Hc.
  destruct a; simpl;
    [unfold firstPage|unfold previousPage|unfold nextPage|unfold lastPage];
    match goal with |- context [if ?b then _ else _] => destruct b end;
    try rewrite showCurrent_after; exact Hc.
Qed.

Lemma RunEnter_waiting_coherent (p p' : Paginator) (t t' : list Event) :
  RunEnter p t = inr (p', t') -> coherent p'.
Proof.
  unfold RunEnter. destruct (active p); [discriminate|].
  destruct (Z.eqb_spec (len (pages p)) 0) as [|Hn]; [discriminate|].
  destruct (pageAt _ _); [|discriminate].
  destruct (ChannelMessageSendComplex _ _ _ _); [|discriminate].
  intros [= <- <-] _. simpl. intros Hp. apply Hn. rewrite Hp. reflexivity.
Qed.

Lemma Run_coherent (p : Paginator) (t : list Event) :
  coherent p -> coherent (after (Run p t)).
Proof.
  intros Hc. unfold Run.
  destruct (RunEnter p t) as [r|[p' t']] eqn:HR; [|apply close_coherent].
  unfold RunEnter in HR. destruct (active p); [injection HR as <-; exact Hc|].
  destruct (len (pages p) =? 0)%Z; [injection HR as <-; exact Hc|].
  destruct (pageAt _ _); [|injection HR as <-; exact Hc].
  destruct (ChannelMessageSendComplex _ _ _ _); [discriminate|].
  injection HR as <-. exact Hc.
Qed.

Lemma Run_without_pages (p : Paginator) (t : list Event) :
  coherent p -> pages p = [] ->
  Run p t =
    mkResult p t (Return (Some (paginatorError "Run" "No pages found in paginator.pages"))).
Proof.
  intros Hc Hp. unfold Run, RunEnter.
  destruct (active p) eqn:Ha.
  - exfalso. exact (Hc Ha Hp).
  - rewrite Hp. reflexivity.
Qed.

(** What a successful start does: one send of the page at the index, the
    returned message recorded, [active] set. *)
Lemma RunEnter_success (p : Paginator) (t : list Event) (e : loc) (rest : list loc)
    (msg : Message) :
  active p = false ->
  pages p = e :: rest ->
  index p = 0%Z ->
  ChannelMessageSendComplex (s p) t (channelID p) e = inl msg ->
  RunEnter p t =
    inr (set_active (set_message p (Some msg)) true,
         t ++ [EvSend (channelID p) e (inl msg)]).
Proof.
  intros Ha Hp Hi Hs. unfold RunEnter.
  rewrite Ha, Hp, Hi. simpl. rewrite Hs. reflexivity.
Qed.

Lemma count_app (f : Event -> bool) (t u : list Event) :
  count f (t ++ u) = count f t + count f u.
Proof. unfold count. rewrite filter_app, length_app. reflexivity. Qed.

Lemma close_adds_no_reaction (p : Paginator) (t : list Event) :
  count isReactionAdd (calls (close p t)) = count isReactionAdd t.
Proof.
  unfold close. simpl.
  destruct (reactionsRemoved p); [reflexivity|].
  destruct (message p); [|reflexivity].
  simpl. rewrite count_app. unfold count at 2. simpl. lia.
Qed.

(** X24.  [Run] never calls [MessageReactionAdd], whatever the paginator
    and the session: the trace it returns holds as many reaction adds as
    the trace it was given. *)
Lemma Run_adds_no_reaction (p : Paginator) (t : list Event) :
  count isReactionAdd (calls (Run p t)) = count isReactionAdd t.
Proof.
  unfold Run, RunEnter.
  destruct (active p); [reflexivity|].
  destruct (len (pages p) =? 0)%Z; [reflexivity|].
  destruct (pageAt _ _); [|reflexivity].
  destruct (ChannelMessageSendComplex _ _ _ _); simpl.
  - rewrite close_adds_no_reaction, count_app. unfold count at 2. simpl. lia.
  - rewrite count_app. unfold count at 2. simpl. lia.
Qed.

(** [addReactions], the method that is never called: when every add
    succeeds it adds the five emojis in the order of the struct. *)
Lemma addReactionsLoop_all_succeed (p : Paginator) (m : Message) (emojis : list string) :
  message p = Some m ->
  (forall t' ch id e, MessageReactionAdd (s p) t' ch id e = None) ->
  forall t,
  addReactionsLoop p t emojis =
    mkResult p (t ++ map (fun e => EvReactionAdd (channelID p) (ID m) e None) emojis)
      (Return None).
Proof.
  intros Hm Hok. induction emojis as [|e rest IH]; intros t; simpl.
  - rewrite app_nil_r. reflexivity.
  - rewrite Hm, Hok, IH, <- app_assoc. reflexivity.
Qed.

(** C7.  A fresh paginator with one page is run on a session where every
    call succeeds.  [Run] sends page 0, records the message and sets
    [active], as the specification says; it then waits and closes.  Its
    whole trace is the send and the removal of the reactions: no
    [MessageReactionAdd] is issued, although [addReactions] on the waiting
    paginator would add the five control emojis in order. *)
Theorem Run_registers_no_reaction :
  let p := created calmSession [1%positive] in
  let waiting := set_active (set_message p (Some sampleMessage)) true in
  RunEnter p [] = inr (waiting, [EvSend "c1" 1%positive (inl sampleMessage)]) /\
  calls (Run p []) =
    [EvSend "c1" 1%positive (inl sampleMessage); EvReactionsRemoveAll "c1" "m1" None] /\
  count isReactionAdd (calls (Run p [])) = 0 /\
  calls (addReactions waiting []) =
    map (fun e => EvReactionAdd "c1" "m1" e None)
      ["first"; "back"; "forward"; "end"; "stop"]%string.
Proof. simpl. repeat split; reflexivity. Qed.

(** * Close *)

Lemma close_removed (p : Paginator) (t : list Event) :
  reactionsRemoved p = true ->
  close p t = mkResult (set_active p false) t (Return None).
Proof. intros H. unfold close. simpl. rewrite H. reflexivity. Qed.

Lemma close_not_removed (p : Paginator) (t : list Event) (m : Message) :
  message p = Some m ->
  reactionsRemoved p = false ->
  close p t =
    let err := MessageReactionsRemoveAll (s p) t (channelID p) (ID m) in
    mkResult
      (match err with
       | None => set_reactionsRemoved (set_active p false) true
       | Some _ => set_active p false
       end)
      (t ++ [EvReactionsRemoveAll (channelID p) (ID m) err])
      (Return (platformError <$> err)).
Proof. intros Hm H. unfold close. simpl. rewrite H, Hm. reflexivity. Qed.

Lemma closeTimes_length (n : nat) (p : Paginator) (t : list Event) :
  length (closeTimes n p t) = n.
Proof.
  revert p t. induction n as [|n IH]; intros p t; simpl; [reflexivity|].
  rewrite IH. reflexivity.
Qed.

(** The trace after any number of calls: the failed removals, one per call,
    then at most one removal that succeeded, after which nothing is
    issued. *)
Lemma closeTimes_shape (ch : string) (m : Message) (n : nat) :
  forall (p : Paginator) (t : list Event),
  message p = Some m ->
  channelID p = ch ->
  Forall
    (fun r =>
       active (after r) = false /\
       exists (errs : list string) (done : bool),
         calls r =
           t ++ map (fun x => EvReactionsRemoveAll ch (ID m) (Some x)) errs
             ++ (if done then [EvReactionsRemoveAll ch (ID m) None] else []) /\
         (reactionsRemoved p = true -> errs = [] /\ done = false))
    (closeTimes n p t).
Proof.
  induction n as [|n IH]; intros p t Hm Hch; simpl; [constructor|].
  destruct (reactionsRemoved p) eqn:Hr.
  - rewrite (close_removed p t Hr). constructor.
    + split; [reflexivity|]. exists [], false. simpl.
      rewrite app_nil_r. split; [reflexivity|]. intros _. split; reflexivity.
    + simpl. eapply Forall_impl;
        [apply (IH (set_active p false) t); assumption|].
      intros r [Hact (errs & done & Hc & Hrem)]. split; [exact Hact|].
      exists errs, done. split; [exact Hc|]. intros _. apply Hrem. exact Hr.
  - rewrite (close_not_removed p t m Hm Hr). simpl. rewrite Hch.
    destruct (MessageReactionsRemoveAll (s p) t ch (ID m)) as [x|] eqn:He.
    + constructor.
      * split; [reflexivity|]. exists [x], false. simpl.
        split; [reflexivity|]. intros [=].
      * simpl. eapply Forall_impl;
          [apply (IH (set_active p false) (t ++ [EvReactionsRemoveAll ch (ID m) (Some x)]));
           assumption|].
        intros r [Hact (errs & done & Hc & _)]. split; [exact Hact|].
        exists (x :: errs), done. rewrite Hc, <- app_assoc. simpl.
        split; [reflexivity|]. intros [=].
    + constructor.
      * split; [reflexivity|]. exists [], true. simpl.
        split; [reflexivity|]. intros [=].
      * simpl. eapply Forall_impl;
          [apply (IH (set_reactionsRemoved (set_active p false) true)
                    (t ++ [EvReactionsRemoveAll ch (ID m) None]));
           assumption|].
        intros r [Hact (errs & done & Hc & Hrem)]. split; [exact Hact|].
        destruct (Hrem eq_refl) as [-> ->]. simpl in Hc.
        exists [], true. rewrite Hc, app_nil_r. simpl.
        split; [reflexivity|]. intros [=].
Qed.

Lemma count_failed_removals (ch id : string) (errs : list string) :
  count isRemovalDone (map (fun x => EvReactionsRemoveAll ch id (Some x)) errs) = 0.
Proof.
  unfold count. induction errs as [|x errs IH]; simpl; [reflexivity|].
  rewrite filter_cons_False; [exact IH|]. simpl. discriminate.
Qed.

(** C8, as stated, fails: when the removal is refused, the second [close]
    issues it again; two removal calls are in the trace after two calls. *)
Lemma close_twice_reissues_removal :
  let p := running noRemovalSession [1%positive] 0 in
  map (fun r => count isRemoval (calls r)) (closeTimes 2 p []) = [1; 2] /\
  map (fun r => active (after r)) (closeTimes 2 p []) = [false; false].
Proof. simpl. split; reflexivity. Qed.

Lemma close_keeps (p : Paginator) (t : list Event) :
  message (after (close p t)) = message p /\
  channelID (after (close p t)) = channelID p /\
  s (after (close p t)) = s p.
Proof.
  unfold close. simpl. destruct (reactionsRemoved p); [repeat split; reflexivity|].
  destruct (message p) eqn:Hm; simpl; [|rewrite Hm; repeat split; reflexivity].
  destruct (MessageReactionsRemoveAll _ _ _ _); simpl; rewrite Hm;
    repeat split; reflexivity.
Qed.

(** Call by call: what the call after [r0] does is decided by
    [reactionsRemoved] as [r0] left it. *)
Lemma closeTimes_steps (sess : Session) (ch : string) (m : Message) (n : nat) :
  forall r0 : result,
  message (after r0) = Some m ->
  channelID (after r0) = ch ->
  s (after r0) = sess ->
  forall (i : nat) (r r' : result),
  (r0 :: closeTimes n (after r0) (calls r0)) !! i = Some r ->
  closeTimes n (after r0) (calls r0) !! i = Some r' ->
  if reactionsRemoved (after r)
  then calls r' = calls r /\ ret r' = Return None /\ reactionsRemoved (after r') = true
  else
    let err := MessageReactionsRemoveAll sess (calls r) ch (ID m) in
    calls r' = calls r ++ [EvReactionsRemoveAll ch (ID m) err] /\
    ret r' = Return (platformError <$> err) /\
    reactionsRemoved (after r') = match err with Some _ => false | None => true end.
Proof.
  induction n as [|n IH]; intros r0 Hm Hc Hs i r r' Hr Hr'; simpl in Hr'.
  - rewrite lookup_nil in Hr'. discriminate.
  - destruct i as [|j]; simpl in Hr, Hr'.
    + injection Hr as <-. injection Hr' as <-.
      destruct (reactionsRemoved (after r0)) eqn:Hrr.
      * rewrite (close_removed _ _ Hrr). simpl. repeat split. exact Hrr.
      * rewrite (close_not_removed _ _ m Hm Hrr). simpl. rewrite Hc, Hs.
        destruct (MessageReactionsRemoveAll sess (calls r0) ch (ID m)); simpl;
          repeat split. exact Hrr.
    + destruct (close_keeps (after r0) (calls r0)) as (Km & Kc & Ks).
      apply (IH (close (after r0) (calls r0))) with (i := j);
        [rewrite Km; exact Hm|rewrite Kc; exact Hc|rewrite Ks; exact Hs|exact Hr|exact Hr'].
Qed.

(** C8, amended.  For a paginator with a hosted message, [close] called N
    times in a row leaves [active] false after every call and issues at most
    one removal that succeeds.  Call by call: while [reactionsRemoved] is
    clear, the call issues one removal for the hosted message, returns its
    error, and sets [reactionsRemoved] exactly when the removal succeeded,
    so that a refused removal is issued again by the next call; once
    [reactionsRemoved] is set, a call issues nothing and returns nil. *)
Theorem close_repeated (n : nat) (p : Paginator) (t : list Event) (m : Message) :
  message p = Some m ->
  length (closeTimes n p t) = n /\
  Forall
    (fun r =>
       active (after r) = false /\
       count isRemovalDone (calls r) <= count isRemovalDone t + 1 /\
       exists (errs : list string) (done : bool),
         calls r =
           t ++ map (fun x => EvReactionsRemoveAll (channelID p) (ID m) (Some x)) errs
             ++ (if done then [EvReactionsRemoveAll (channelID p) (ID m) None] else []) /\
         (reactionsRemoved p = true -> errs = [] /\ done = false))
    (closeTimes n p t) /\
  (forall (i : nat) (r r' : result),
     (mkResult p t (Return None) :: closeTimes n p t) !! i = Some r ->
     closeTimes n p t !! i = Some r' ->
     if reactionsRemoved (after r)
     then calls r' = calls r /\ ret r' = Return None /\ reactionsRemoved (after r') = true
     else
       let err := MessageReactionsRemoveAll (s p) (calls r) (channelID p) (ID m) in
       calls r' = calls r ++ [EvReactionsRemoveAll (channelID p) (ID m) err] /\
       ret r' = Return (platformError <$> err) /\
       reactionsRemoved (after r') = match err with Some _ => false | None => true end).
Proof.
  intros Hm. split; [apply closeTimes_length|]. split.
  - eapply Forall_impl; [apply (closeTimes_shape (channelID p) m n p t Hm eq_refl)|].
    intros r [Hact (errs & done & Hc & Hrem)].
    split; [exact Hact|]. split; [|exists errs, done; split; assumption].
    rewrite Hc, !count_app, count_failed_removals.
    destruct done; unfold count; simpl; lia.
  - exact (closeTimes_steps (s p) (channelID p) m n (mkResult p t (Return None))
             Hm eq_refl eq_refl).
Qed.

Lemma close_repeated_witness :
  let p := running removalRefusedOnce [1%positive] 0 in
  let refused := EvReactionsRemoveAll "c1" "m1" (Some "removal refused") in
  let removed := EvReactionsRemoveAll "c1" "m1" None in
  map calls (closeTimes 3 p []) = [[refused]; [refused; removed]; [refused; removed]] /\
  length (closeTimes 3 p []) = 3 /\
  Forall
    (fun r =>
       active (after r) = false /\
       count isRemovalDone (calls r) <= count isRemovalDone [] + 1 /\
       exists (errs : list string) (done : bool),
         calls r =
           [] ++ map (fun x => EvReactionsRemoveAll (channelID p) (ID sampleMessage) (Some x)) errs
             ++ (if done then [EvReactionsRemoveAll (channelID p) (ID sampleMessage) None] else []) /\
         (reactionsRemoved p = true -> errs = [] /\ done = false))
    (closeTimes 3 p []) /\
  (forall (i : nat) (r r' : result),
     (mkResult p [] (Return None) :: closeTimes 3 p []) !! i = Some r ->
     closeTimes 3 p [] !! i = Some r' ->
     if reactionsRemoved (after r)
     then calls r' = calls r /\ ret r' = Return None /\ reactionsRemoved (after r') = true
     else
       let err := MessageReactionsRemoveAll (s p) (calls r) (channelID p) (ID sampleMessage) in
       calls r' = calls r ++ [EvReactionsRemoveAll (channelID p) (ID sampleMessage) err] /\
       ret r' = Return (platformError <$> err) /\
       reactionsRemoved (after r') = match err with Some _ => false | None => true end).
Proof.
  split; [reflexivity|].
  exact (close_repeated 3 (running removalRefusedOnce [1%positive] 0) [] sampleMessage eq_refl).
Defined.

(** * Page numbers *)

Lemma pageNumberText_example :
  pageNumberText (running calmSession [1%positive; 2%positive; 3%positive] 1) = "2/3".
Proof. reflexivity. Qed.

Lemma set_Footer_twice (e : MessageEmbed) (f g : option MessageEmbedFooter) :
  set_Footer (set_Footer e f) g = set_Footer e g.
Proof. reflexivity. Qed.

(** The loop over allocated pages ends normally; it has written the footer
    of every page of the list, once or more, and touched no other
    location. *)
Lemma setFooters_allocated (text : string) (ps : list loc) :
  forall h : gmap loc MessageEmbed,
  (forall l, l ∈ ps -> is_Some (h !! l)) ->
  exists h' : gmap loc MessageEmbed,
    setFooters text ps h = (h', Return None) /\
    forall l,
      h' !! l =
        if decide (l ∈ ps)
        then (fun e => set_Footer e (Some (mkFooter text "" ""))) <$> h !! l
        else h !! l.
Proof.
  induction ps as [|l0 rest IH]; intros h Hall; simpl.
  - exists h. split; [reflexivity|]. intros l.
    destruct (decide (l ∈ [])) as [Hin|_]; [|reflexivity].
    apply elem_of_nil in Hin. contradiction.
  - destruct (Hall l0) as [e0 He0]; [left|]. rewrite He0.
    destruct (IH (<[l0 := set_Footer e0 (Some (mkFooter text "" ""))]> h)) as (h' & Hrun & Hh').
    { intros l Hl. destruct (decide (l0 = l)) as [->|Hne].
      - rewrite lookup_insert_eq. eauto.
      - rewrite lookup_insert_ne by exact Hne. apply Hall. right. exact Hl. }
    exists h'. split; [exact Hrun|]. intros l. rewrite Hh'.
    destruct (decide (l0 = l)) as [->|Hne].
    + rewrite lookup_insert_eq, He0.
      destruct (decide (l ∈ l :: rest)) as [_|Hn]; [|exfalso; apply Hn; left].
      destruct (decide (l ∈ rest)); reflexivity.
    + rewrite lookup_insert_ne by exact Hne.
      destruct (decide (l ∈ rest)) as [Hin|Hnin];
        destruct (decide (l ∈ l0 :: rest)) as [Hin'|Hnin']; try reflexivity.
      * exfalso. apply Hnin'. right. exact Hin.
      * exfalso. apply elem_of_cons in Hin'. destruct Hin' as [->|Hin']; [apply Hne|apply Hnin]; auto.
Qed.

(** C9, as stated, fails: with two pages and the index on the first, the
    second page does not stay as it was; it gets the footer "1/2" too. *)
Lemma setPageNumber_writes_other_page :
  let p := running calmSession [1%positive; 2%positive] 0 in
  let h' := fst (setPageNumber p sampleHeap) in
  sampleHeap !! 2%positive = Some pageB /\
  h' !! 2%positive = Some (set_Footer pageB (Some (mkFooter "1/2" "" ""))) /\
  h' !! 2%positive <> sampleHeap !! 2%positive.
Proof. vm_compute. split; [reflexivity|]. split; [reflexivity|discriminate]. Qed.

(** C9, amended.  For a paginator whose page sequence is non-empty and
    allocated, [setPageNumber] returns nil and sets the footer of every
    page of the sequence to "{index+1}/{len(pages)}", leaving the other
    fields of each page, and every embed outside the sequence,
    unchanged. *)
Theorem setPageNumber_numbers_every_page (p : Paginator) (h : gmap loc MessageEmbed) :
  pages p <> [] ->
  (forall l, l ∈ pages p -> is_Some (h !! l)) ->
  exists h' : gmap loc MessageEmbed,
    setPageNumber p h = (h', Return None) /\
    (forall l e, l ∈ pages p -> h !! l = Some e -> h' !! l = Some (numbered p e)) /\
    (forall l, l ∉ pages p -> h' !! l = h !! l).
Proof.
  intros Hne Hall. unfold setPageNumber.
  destruct (Z.eqb_spec (len (pages p)) 0) as [Hz|_].
  { exfalso. apply Hne. unfold len in Hz. destruct (pages p); [reflexivity|simpl in Hz; lia]. }
  destruct (setFooters_allocated (pageNumberText p) (pages p) h Hall) as (h' & Hrun & Hh').
  exists h'. split; [exact Hrun|]. split.
  - intros l e Hin He. rewrite Hh', He.
    destruct (decide (l ∈ pages p)); [reflexivity|contradiction].
  - intros l Hnin. rewrite Hh'.
    destruct (decide (l ∈ pages p)); [contradiction|reflexivity].
Qed.

Lemma setPageNumber_numbers_every_page_witness :
  let p := running calmSession [1%positive; 2%positive; 3%positive] 1 in
  exists h' : gmap loc MessageEmbed,
    setPageNumber p sampleHeap = (h', Return None) /\
    (forall l e, l ∈ pages p -> sampleHeap !! l = Some e -> h' !! l = Some (numbered p e)) /\
    (forall l, l ∉ pages p -> h' !! l = sampleHeap !! l).
Proof.
  apply (setPageNumber_numbers_every_page
           (running calmSession [1%positive; 2%positive; 3%positive] 1) sampleHeap).
  - simpl. discriminate.
  - simpl. intros l Hl.
    repeat (apply elem_of_cons in Hl; destruct Hl as [->|Hl]; [vm_compute; eauto|]).
    apply elem_of_nil in Hl. contradiction.
Defined.

(** * Configuration *)

(** C10.  When the file at the path exists and can be read, [GetConfig]
    returns nil and leaves the files alone, whatever [yaml.Unmarshal]
    returned: the value is what [Unmarshal] left behind, the error is
    dropped.  So a YAML library that reports an error and one that reports
    none, leaving the same value, give the caller the same outcome. *)
Theorem GetConfig_discards_unmarshal_error (Output : Type)
    (Unmarshal : string -> Output -> Output * option string)
    (Marshal : Output -> string + string) (writeError : string -> option string)
    (fs : gmap string utilpkg.File) (path : string) (output : Output)
    (f : utilpkg.File) :
  fs !! path = Some f ->
  utilpkg.readError f = None ->
  utilpkg.GetConfig Output Unmarshal Marshal writeError fs path output =
    utilpkg.mkOutcome Output fs (fst (Unmarshal (utilpkg.data f) output)) None /\
  forall Unmarshal' : string -> Output -> Output * option string,
    fst (Unmarshal' (utilpkg.data f) output) = fst (Unmarshal (utilpkg.data f) output) ->
    utilpkg.GetConfig Output Unmarshal' Marshal writeError fs path output =
    utilpkg.GetConfig Output Unmarshal Marshal writeError fs path output.
Proof.
  intros Hf Hr. unfold utilpkg.GetConfig. rewrite Hf, Hr. split.
  - destruct (Unmarshal (utilpkg.data f) output). reflexivity.
  - intros U' HU.
    destruct (U' (utilpkg.data f) output), (Unmarshal (utilpkg.data f) output).
    simpl in HU. rewrite HU. reflexivity.
Qed.

Lemma GetConfig_discards_unmarshal_error_witness :
  snd (rejectingUnmarshal "{ not yaml" 7) = Some "yaml: unmarshal errors" /\
  utilpkg.GetConfig nat rejectingUnmarshal sampleMarshal (fun _ => None)
    sampleFiles "config.yml" 7 =
    utilpkg.mkOutcome nat sampleFiles 7 None.
Proof.
  split; [reflexivity|].
  exact (proj1 (GetConfig_discards_unmarshal_error nat rejectingUnmarshal sampleMarshal
                  (fun _ => None) sampleFiles "config.yml" 7
                  (utilpkg.mkFile "{ not yaml" None) eq_refl eq_refl)).
Defined.

(** * Further properties: navigation *)

Lemma pageAt_in_range (ps : list loc) (i : Z) :
  (0 <= i < len ps)%Z -> exists e, pageAt ps i = Some e.
Proof.
  intros Hi. destruct (pageAt ps i) as [e|] eqn:He; [eauto|].
  apply pageAt_None_iff in He. lia.
Qed.

Lemma len_pos (ps : list loc) : ps <> [] -> (0 < len ps)%Z.
Proof. unfold len. destruct ps; [contradiction|simpl; lia]. Qed.

Lemma set_index_same (p : Paginator) : set_index p (index p) = p.
Proof. destruct p. reflexivity. Qed.

(** One move changes the index at most and issues one edit at most. *)
Lemma navigate_step (a : move) (p : Paginator) (t : list Event) :
  exists (i : Z) (new : list Event),
    after (navigate a p t) = set_index p i /\
    calls (navigate a p t) = t ++ new /\
    Forall (fun ev => isEdit ev = true) new /\
    length new <= 1.
Proof.
  assert (forall q, exists new : list Event,
            calls (showCurrent q t) = t ++ new /\
            Forall (fun ev => isEdit ev = true) new /\ length new <= 1) as Hshow.
  { intros q. unfold showCurrent, updatePaginatorMessage.
    destruct (pageAt _ _); [destruct (message q)|]; simpl.
    - eexists [_]. split; [reflexivity|]. split; [repeat constructor|simpl; lia].
    - exists []. rewrite app_nil_r. split; [reflexivity|]. split; [constructor|simpl; lia].
    - exists []. rewrite app_nil_r. split; [reflexivity|]. split; [constructor|simpl; lia]. }
  destruct a; simpl;
    [unfold firstPage|unfold previousPage|unfold nextPage|unfold lastPage];
    match goal with |- context [if ?b then _ else _] => destruct b end;
    try (exists (index p), []; simpl; rewrite set_index_same, app_nil_r;
         split; [reflexivity|]; split; [reflexivity|]; split; [constructor|lia]);
    rewrite showCurrent_after;
    match goal with |- context [showCurrent ?q t] => destruct (Hshow q) as (new & Hc & Hf & Hl) end;
    eexists _, new; (split; [reflexivity|]); (split; [exact Hc|]); split; assumption.
Qed.

(** X1.  Whatever the moves and the answers of the session, a sequence of
    moves changes nothing of the paginator but the index (pages, message,
    [active], [reactionsRemoved] stay), and adds only edits to the trace, one
    per move at most. *)
Theorem navigateAll_frame (l : list move) :
  forall (p : Paginator) (t : list Event),
  Forall
    (fun r =>
       (exists i, after r = set_index p i) /\
       exists new, calls r = t ++ new /\
                   Forall (fun ev => isEdit ev = true) new /\
                   length new <= length l)
    (navigateAll l p t).
Proof.
  induction l as [|a l IH]; intros p t; simpl; [constructor|].
  destruct (navigate_step a p t) as (i & new & Ha & Hc & Hf & Hl).
  constructor.
  - split; [eauto|]. exists new. repeat split; [assumption|assumption|lia].
  - eapply Forall_impl; [apply IH|]. simpl.
    intros r [[j Hj] (new' & Hc' & Hf' & Hl')]. split.
    + exists j. rewrite Hj, Ha. reflexivity.
    + exists (new ++ new'). rewrite Hc', Hc, <- app_assoc.
      split; [reflexivity|]. split; [apply Forall_app; split; assumption|].
      rewrite length_app. lia.
Qed.

Lemma navigate_bounds (a : move) (p : Paginator) (t : list Event) :
  pages p <> [] ->
  (len (pages p) < 2 ^ 62)%Z ->
  (0 <= index p <= len (pages p) + 1)%Z ->
  (0 <= index (after (navigate a p t)) <= len (pages p) + 1)%Z /\
  pages (after (navigate a p t)) = pages p.
Proof.
  intros Hne Hlen Hi. pose proof (len_pos _ Hne) as Hpos.
  destruct a; simpl;
    [unfold firstPage|unfold previousPage|unfold nextPage|unfold lastPage].
  - destruct (Z.eqb_spec (index p) 0); [|rewrite showCurrent_after]; simpl;
      (split; [lia|reflexivity]).
  - destruct (Z.eqb_spec (index p) 0); [|rewrite showCurrent_after]; simpl;
      [|rewrite wrap64_id by lia]; (split; [lia|reflexivity]).
  - rewrite (wrap64_id (len (pages p) + 1)) by lia.
    destruct (Z.eqb_spec (index p) (len (pages p) + 1)); [|rewrite showCurrent_after]; simpl;
      [|rewrite wrap64_id by lia]; (split; [lia|reflexivity]).
  - destruct (Z.eqb_spec (index p) 0); [|rewrite showCurrent_after]; simpl;
      [|rewrite wrap64_id by lia]; (split; [lia|reflexivity]).
Qed.

(** X2.  With at least one page, no sequence of moves takes the index below
    0 or above [len(pages)+1]: the guard of [nextPage] stops the index two
    places past the last page, the guards at 0 stop it at the first. *)
Theorem navigateAll_index_bounds (l : list move) :
  forall (p : Paginator) (t : list Event),
  pages p <> [] ->
  (len (pages p) < 2 ^ 62)%Z ->
  (0 <= index p <= len (pages p) + 1)%Z ->
  Forall (fun r => (0 <= index (after r) <= len (pages p) + 1)%Z) (navigateAll l p t).
Proof.
  induction l as [|a l IH]; intros p t Hne Hlen Hi; simpl; [constructor|].
  destruct (navigate_bounds a p t Hne Hlen Hi) as [Hb Hp].
  constructor; [exact Hb|].
  rewrite <- Hp. apply IH; rewrite Hp; assumption.
Qed.

Lemma navigateAll_index_bounds_witness :
  let p := running calmSession [1%positive; 2%positive] 0 in
  Forall (fun r => (0 <= index (after r) <= len (pages p) + 1)%Z)
    (navigateAll [Forwards; Forwards; Forwards; Forwards; Backwards] p []).
Proof.
  apply (navigateAll_index_bounds [Forwards; Forwards; Forwards; Forwards; Backwards]
           (running calmSession [1%positive; 2%positive] 0) []).
  - simpl. discriminate.
  - unfold len. simpl. lia.
  - unfold len. simpl. lia.
Defined.

Lemma nextPage_on_last_page_witness :
  let p := running calmSession [1%positive; 2%positive] 1 in
  nextPage p [] = mkResult (set_index p (len (pages p))) [] Panic.
Proof.
  apply (nextPage_on_last_page (running calmSession [1%positive; 2%positive] 1) []).
  - simpl. discriminate.
  - unfold len. simpl. lia.
  - reflexivity.
Defined.

Lemma other_moves_keep_range_witness :
  inRange (after (navigate ToEnd (running noEditSession [1%positive; 2%positive; 3%positive] 1) [])).
Proof.
  apply (other_moves_keep_range ToEnd
           (running noEditSession [1%positive; 2%positive; 3%positive] 1) []).
  - discriminate.
  - simpl. discriminate.
  - unfold len. simpl. lia.
  - unfold inRange, len. simpl. lia.
Defined.

(** X6.  Away from the first page, [previousPage] followed by [nextPage]
    brings the paginator back to where it was; the two calls edit the
    message with the page before and then with the page it started on. *)
Theorem previous_then_next (p : Paginator) (t : list Event) (m : Message) :
  message p = Some m ->
  (len (pages p) < 2 ^ 62)%Z ->
  (1 <= index p <= len (pages p) - 1)%Z ->
  let r1 := previousPage p t in
  let r2 := nextPage (after r1) (calls r1) in
  after r2 = p /\
  exists e1 e2 err1 err2,
    pageAt (pages p) (index p - 1) = Some e1 /\
    pageAt (pages p) (index p) = Some e2 /\
    calls r2 =
      t ++ [EvEdit (ID m) (channelID p) e1 err1; EvEdit (ID m) (channelID p) e2 err2] /\
    ret r1 = Return (platformError <$> err1) /\
    ret r2 = Return (platformError <$> err2).
Proof.
  intros Hm Hlen Hi.
  destruct (pageAt_in_range (pages p) (index p - 1)) as [e1 He1]; [lia|].
  destruct (pageAt_in_range (pages p) (index p)) as [e2 He2]; [lia|].
  assert (previousPage p t =
          let err := ChannelMessageEditComplex (s p) t (ID m) (channelID p) e1 in
          mkResult (set_index p (index p - 1)) (t ++ [EvEdit (ID m) (channelID p) e1 err])
            (Return (platformError <$> err))) as H1.
  { unfold previousPage. destruct (Z.eqb_spec (index p) 0); [lia|].
    rewrite wrap64_id by lia.
    rewrite (showCurrent_edit _ t m e1) by (simpl; assumption). reflexivity. }
  simpl. rewrite H1. simpl.
  set (err1 := ChannelMessageEditComplex (s p) t (ID m) (channelID p) e1).
  set (t1 := t ++ [EvEdit (ID m) (channelID p) e1 err1]).
  unfold nextPage. simpl.
  rewrite (wrap64_id (len (pages p) + 1)) by lia.
  destruct (Z.eqb_spec (index p - 1) (len (pages p) + 1)); [lia|].
  rewrite wrap64_id by lia.
  replace (index p - 1 + 1)%Z with (index p) by lia.
  rewrite (showCurrent_edit _ t1 m e2) by (simpl; assumption). simpl.
  split; [exact (set_index_same p)|].
  exists e1, e2, err1, (ChannelMessageEditComplex (s p) t1 (ID m) (channelID p) e2).
  unfold t1. rewrite <- app_assoc. simpl. repeat split; assumption || reflexivity.
Qed.

Lemma previous_then_next_witness :
  let p := running noEditSession [1%positive; 2%positive; 3%positive] 2 in
  let r1 := previousPage p [] in
  let r2 := nextPage (after r1) (calls r1) in
  after r2 = p /\
  exists e1 e2 err1 err2,
    pageAt (pages p) (index p - 1) = Some e1 /\
    pageAt (pages p) (index p) = Some e2 /\
    calls r2 =
      [] ++ [EvEdit (ID sampleMessage) (channelID p) e1 err1;
             EvEdit (ID sampleMessage) (channelID p) e2 err2] /\
    ret r1 = Return (platformError <$> err1) /\
    ret r2 = Return (platformError <$> err2).
Proof.
  apply (previous_then_next (running noEditSession [1%positive; 2%positive; 3%positive] 2) []
           sampleMessage).
  - reflexivity.
  - unfold len. simpl. lia.
  - unfold len. simpl. lia.
Defined.

(** X7.  Before a message is hosted no move succeeds and none reaches the
    session: the call is rejected by its guard or panics on the nil
    message (or on the page index), and the trace is as it was. *)
Theorem navigate_without_message (a : move) (p : Paginator) (t : list Event) :
  message p = None ->
  calls (navigate a p t) = t /\ ret (navigate a p t) <> Return None.
Proof.
  intros Hm.
  assert (forall q, message q = None ->
            calls (showCurrent q t) = t /\ ret (showCurrent q t) <> Return None) as Hshow.
  { intros q Hq. unfold showCurrent, updatePaginatorMessage.
    destruct (pageAt _ _); [rewrite Hq|]; simpl; split; reflexivity || discriminate. }
  destruct a; simpl;
    [unfold firstPage|unfold previousPage|unfold nextPage|unfold lastPage];
    match goal with |- context [if ?b then _ else _] => destruct b end;
    try (simpl; split; [reflexivity|discriminate]);
    apply Hshow; exact Hm.
Qed.

Lemma navigate_without_message_witness :
  let p := set_index (created calmSession [1%positive; 2%positive]) 1 in
  calls (navigate Backwards p []) = [] /\ ret (navigate Backwards p []) <> Return None.
Proof.
  exact (navigate_without_message Backwards
           (set_index (created calmSession [1%positive; 2%positive]) 1) [] eq_refl).
Defined.

(** * Further properties: Run *)

(** X8.  [Run] hands the paginator back with [active] as it found it (it is
    set for the wait and cleared by [close] before returning), and with its
    channel, pages, emojis, index, session, user and timeout untouched: only
    the hosted message and [reactionsRemoved] can differ. *)
Theorem Run_frame (p : Paginator) (t : list Event) :
  active (after (Run p t)) = active p /\
  set_reactionsRemoved (set_message (after (Run p t)) (message p)) (reactionsRemoved p) = p.
Proof.
  destruct p as [msg ch ps em i sess rr u d act].
  unfold Run, RunEnter. simpl.
  destruct act; [split; reflexivity|].
  destruct (len ps =? 0)%Z; [split; reflexivity|].
  destruct (pageAt ps i); [|split; reflexivity].
  destruct (ChannelMessageSendComplex sess t ch l); [|split; reflexivity].
  unfold close. simpl. destruct rr; [split; reflexivity|].
  simpl. destruct (MessageReactionsRemoveAll sess _ ch _); split; reflexivity.
Qed.

(** X9.  A run that goes through: on an inactive paginator whose index is on
    a page, when the send succeeds, [Run] records the message the session
    returned, and its removal of the reactions is addressed to that message
    in the paginator's channel; [Run] returns what the removal returned and
    sets [reactionsRemoved] only if it succeeded.  The trace gains the send
    and the removal, nothing else. *)
Theorem Run_success (p : Paginator) (t : list Event) (e : loc) (msg : Message) :
  active p = false ->
  reactionsRemoved p = false ->
  pageAt (pages p) (index p) = Some e ->
  ChannelMessageSendComplex (s p) t (channelID p) e = inl msg ->
  Run p t =
    let t1 := t ++ [EvSend (channelID p) e (inl msg)] in
    let err := MessageReactionsRemoveAll (s p) t1 (channelID p) (ID msg) in
    let hosted := set_active (set_message p (Some msg)) false in
    mkResult
      (match err with
       | None => set_reactionsRemoved hosted true
       | Some _ => hosted
       end)
      (t1 ++ [EvReactionsRemoveAll (channelID p) (ID msg) err])
      (Return (platformError <$> err)).
Proof.
  intros Ha Hr He Hs. unfold Run, RunEnter. rewrite Ha.
  destruct (Z.eqb_spec (len (pages p)) 0) as [Hz|_].
  { assert (pageAt (pages p) (index p) = None) as Hn
      by (apply pageAt_None_iff; lia).
    rewrite Hn in He. discriminate. }
  rewrite He, Hs.
  rewrite (close_not_removed _ _ msg) by (simpl; assumption || reflexivity).
  simpl. destruct (MessageReactionsRemoveAll _ _ _ _); reflexivity.
Qed.

Lemma Run_success_witness :
  Run (created noRemovalSession [1%positive]) [] =
    mkResult (set_active (set_message (created noRemovalSession [1%positive])
                            (Some sampleMessage)) false)
      [EvSend "c1" 1%positive (inl sampleMessage);
       EvReactionsRemoveAll "c1" "m1" (Some "removal refused")]
      (Return (Some (platformError "removal refused"))).
Proof.
  exact (Run_success (created noRemovalSession [1%positive]) [] 1%positive sampleMessage
           eq_refl eq_refl eq_refl eq_refl).
Defined.

(** X10.  A send that fails: [Run] returns a paginator error of function
    "Run" carrying the session's text, the paginator is as it was (inactive,
    no message recorded), and the failed send is the only call made. *)
Theorem Run_send_failure (p : Paginator) (t : list Event) (e : loc) (text : string) :
  active p = false ->
  pageAt (pages p) (index p) = Some e ->
  ChannelMessageSendComplex (s p) t (channelID p) e = inr text ->
  Run p t =
    mkResult p (t ++ [EvSend (channelID p) e (inr text)])
      (Return (Some (paginatorError "Run" text))).
Proof.
  intros Ha He Hs. unfold Run, RunEnter. rewrite Ha.
  destruct (Z.eqb_spec (len (pages p)) 0) as [Hz|_].
  { assert (pageAt (pages p) (index p) = None) as Hn
      by (apply pageAt_None_iff; lia).
    rewrite Hn in He. discriminate. }
  rewrite He, Hs. reflexivity.
Qed.

Lemma Run_send_failure_witness :
  Run (created noSendSession [1%positive]) [] =
    mkResult (created noSendSession [1%positive])
      [EvSend "c1" 1%positive (inr "send refused")]
      (Return (Some (paginatorError "Run" "send refused"))).
Proof.
  exact (Run_send_failure (created noSendSession [1%positive]) [] 1%positive "send refused"
           eq_refl eq_refl eq_refl).
Defined.

(** What a [Run] that returned nil has left behind. *)
Lemma Run_nil_inv (p : Paginator) (t : list Event) :
  ret (Run p t) = Return None ->
  active (after (Run p t)) = false /\
  reactionsRemoved (after (Run p t)) = true /\
  pages (after (Run p t)) = pages p /\
  index (after (Run p t)) = index p /\
  channelID (after (Run p t)) = channelID p /\
  s (after (Run p t)) = s p /\
  exists e, pageAt (pages p) (index p) = Some e /\ (len (pages p) =? 0)%Z = false.
Proof.
  unfold Run, RunEnter.
  destruct (active p); [discriminate|].
  destruct (len (pages p) =? 0)%Z; [discriminate|].
  destruct (pageAt (pages p) (index p)) as [e|]; [|discriminate].
  destruct (ChannelMessageSendComplex _ _ _ _) as [msg|]; [|discriminate].
  unfold close. simpl. destruct (reactionsRemoved p) eqn:Hr.
  - simpl. rewrite Hr. intros _. repeat split; eauto.
  - simpl. destruct (MessageReactionsRemoveAll _ _ _ _); [discriminate|].
    simpl. intros _. repeat split; eauto.
Qed.

(** X11.  A paginator whose [Run] returned nil can be run again: the second
    [Run] is not rejected as already running, it sends the page at the index
    once more; and since [reactionsRemoved] is still set from the first run
    it makes no other call: the reactions are not removed a second time. *)
Theorem Run_again (p : Paginator) (t : list Event) :
  ret (Run p t) = Return None ->
  let r1 := Run p t in
  let r2 := Run (after r1) (calls r1) in
  active (after r1) = false /\
  exists e,
    pageAt (pages p) (index p) = Some e /\
    calls r2 =
      calls r1 ++
      [EvSend (channelID p) e (ChannelMessageSendComplex (s p) (calls r1) (channelID p) e)].
Proof.
  intros Hnil.
  destruct (Run_nil_inv p t Hnil) as (Ha & Hr & Hp & Hi & Hc & Hs & e & He & Hl).
  simpl. split; [exact Ha|]. exists e. split; [exact He|].
  remember (Run p t) as r1 eqn:E. clear E Hnil.
  unfold Run, RunEnter. rewrite Ha, Hp, Hi, Hc, Hs, Hl, He.
  destruct (ChannelMessageSendComplex (s p) (calls r1) (channelID p) e); [|reflexivity].
  unfold close. simpl. rewrite Hr. reflexivity.
Qed.

Lemma Run_again_witness :
  let p := created calmSession [1%positive] in
  let r1 := Run p [] in
  let r2 := Run (after r1) (calls r1) in
  active (after r1) = false /\
  exists e,
    pageAt (pages p) (index p) = Some e /\
    calls r2 =
      calls r1 ++
      [EvSend (channelID p) e (ChannelMessageSendComplex (s p) (calls r1) (channelID p) e)].
Proof.
  exact (Run_again (created calmSession [1%positive]) [] eq_refl).
Defined.

(** * Further properties: reactions *)

(** X12.  On a hosted message, when the session accepts every reaction,
    [addReactions] returns nil having added the five control emojis to
    that message in the order of the struct: to-begin, backwards, forwards,
    to-end, stop.  The paginator is unchanged. *)
Theorem addReactions_all_succeed (p : Paginator) (t : list Event) (m : Message) :
  message p = Some m ->
  (forall t' ch id e, MessageReactionAdd (s p) t' ch id e = None) ->
  addReactions p t =
    mkResult p
      (t ++ map (fun e => EvReactionAdd (channelID p) (ID m) e None)
              [toBegin (controlEmojis p); backwards (controlEmojis p);
               forwards (controlEmojis p); toEnd (controlEmojis p);
               stop (controlEmojis p)])
      (Return None).
Proof.
  intros Hm Hok. unfold addReactions, emojiFields.
  apply addReactionsLoop_all_succeed; assumption.
Qed.

Lemma addReactions_all_succeed_witness :
  addReactions (running calmSession [1%positive] 0) [] =
    mkResult (running calmSession [1%positive] 0)
      (map (fun e => EvReactionAdd "c1" "m1" e None)
         ["first"; "back"; "forward"; "end"; "stop"]%string)
      (Return None).
Proof.
  exact (addReactions_all_succeed (running calmSession [1%positive] 0) [] sampleMessage
           eq_refl (fun _ _ _ _ => eq_refl)).
Defined.

Lemma addReactionsLoop_shape (p : Paginator) (m : Message) :
  message p = Some m ->
  forall (emojis : list string) (t : list Event),
  exists n : nat,
    n <= length emojis /\
    after (addReactionsLoop p t emojis) = p /\
    ((n = length emojis /\
      calls (addReactionsLoop p t emojis) =
        t ++ map (fun e => EvReactionAdd (channelID p) (ID m) e None) (take n emojis) /\
      ret (addReactionsLoop p t emojis) = Return None)
     \/
     (exists e x,
        emojis !! n = Some e /\
        calls (addReactionsLoop p t emojis) =
          t ++ map (fun e => EvReactionAdd (channelID p) (ID m) e None) (take n emojis)
            ++ [EvReactionAdd (channelID p) (ID m) e (Some x)] /\
        ret (addReactionsLoop p t emojis) = Return (Some (platformError x)))).
Proof.
  intros Hm. induction emojis as [|e rest IH]; intros t; simpl.
  - exists 0. split; [lia|]. split; [reflexivity|]. left.
    rewrite app_nil_r. repeat split; reflexivity.
  - rewrite Hm.
    destruct (MessageReactionAdd (s p) t (channelID p) (ID m) e) as [x|] eqn:Hans.
    + exists 0. split; [lia|]. split; [reflexivity|]. right.
      exists e, x. simpl. repeat split; reflexivity.
    + destruct (IH (t ++ [EvReactionAdd (channelID p) (ID m) e None]))
        as (n & Hn & Haft & Hcases).
      exists (S n). split; [lia|]. split; [exact Haft|].
      destruct Hcases as [(Hlen & Hc & Hr)|(e' & x & Hl & Hc & Hr)].
      * left. split; [lia|]. split; [|exact Hr].
        rewrite Hc, <- app_assoc. reflexivity.
      * right. exists e', x. split; [exact Hl|]. split; [|exact Hr].
        rewrite Hc, <- app_assoc. reflexivity.
Qed.

(** X13.  [addReactions] stops at the first reaction the session refuses.
    On a hosted message its calls are the adds of the first [n] control
    emojis, in order and all accepted, followed either by nothing (then
    [n] is 5 and nil is returned) or by the refused add of the next emoji,
    whose error is returned; no emoji after a refused one is tried. *)
Theorem addReactions_stops_at_first_error (p : Paginator) (t : list Event) (m : Message) :
  message p = Some m ->
  exists n : nat,
    n <= 5 /\
    after (addReactions p t) = p /\
    ((n = 5 /\
      calls (addReactions p t) =
        t ++ map (fun e => EvReactionAdd (channelID p) (ID m) e None)
               (take n (emojiFields (controlEmojis p))) /\
      ret (addReactions p t) = Return None)
     \/
     (exists e x,
        emojiFields (controlEmojis p) !! n = Some e /\
        calls (addReactions p t) =
          t ++ map (fun e => EvReactionAdd (channelID p) (ID m) e None)
                 (take n (emojiFields (controlEmojis p)))
            ++ [EvReactionAdd (channelID p) (ID m) e (Some x)] /\
        ret (addReactions p t) = Return (Some (platformError x)))).
Proof.
  intros Hm. unfold addReactions.
  exact (addReactionsLoop_shape p m Hm (emojiFields (controlEmojis p)) t).
Qed.

Lemma addReactions_stops_at_first_error_witness :
  let p := running forwardRefused [1%positive] 0 in
  exists n : nat,
    n <= 5 /\
    after (addReactions p []) = p /\
    ((n = 5 /\
      calls (addReactions p []) =
        [] ++ map (fun e => EvReactionAdd (channelID p) (ID sampleMessage) e None)
               (take n (emojiFields (controlEmojis p))) /\
      ret (addReactions p []) = Return None)
     \/
     (exists e x,
        emojiFields (controlEmojis p) !! n = Some e /\
        calls (addReactions p []) =
          [] ++ map (fun e => EvReactionAdd (channelID p) (ID sampleMessage) e None)
                 (take n (emojiFields (controlEmojis p)))
            ++ [EvReactionAdd (channelID p) (ID sampleMessage) e (Some x)] /\
        ret (addReactions p []) = Return (Some (platformError x)))).
Proof.
  exact (addReactions_stops_at_first_error (running forwardRefused [1%positive] 0) []
           sampleMessage eq_refl).
Defined.

(** The run of the sample: two adds accepted, the third refused, the last
    two emojis never tried. *)
Lemma addReactions_forwardRefused :
  calls (addReactions (running forwardRefused [1%positive] 0) []) =
    [EvReactionAdd "c1" "m1" "first" None; EvReactionAdd "c1" "m1" "back" None;
     EvReactionAdd "c1" "m1" "forward" (Some "unknown emoji")].
Proof. reflexivity. Qed.

(** * Further properties: close *)

(** X14.  [close] changes [active] and [reactionsRemoved] and nothing else
    of the paginator; [reactionsRemoved], once set, stays set; and the trace
    gains one call at most, a removal of the reactions. *)
Theorem close_frame (p : Paginator) (t : list Event) :
  set_reactionsRemoved (set_active (after (close p t)) (active p)) (reactionsRemoved p) = p /\
  (reactionsRemoved p = true -> reactionsRemoved (after (close p t)) = true) /\
  exists new,
    calls (close p t) = t ++ new /\
    length new <= 1 /\
    Forall (fun ev => isRemoval ev = true) new.
Proof.
  destruct p as [msg ch ps em i sess rr u d act].
  unfold close. simpl. destruct rr; simpl.
  - split; [reflexivity|]. split; [reflexivity|].
    exists []. rewrite app_nil_r. repeat split; [simpl; lia|constructor].
  - destruct msg as [m|]; simpl.
    + split; [destruct (MessageReactionsRemoveAll sess t ch (ID m)); reflexivity|].
      split; [discriminate|].
      eexists [_]. split; [reflexivity|]. split; [simpl; lia|repeat constructor].
    + split; [reflexivity|]. split; [discriminate|].
      exists []. rewrite app_nil_r. repeat split; [simpl; lia|constructor].
Qed.

(** X15.  [close] returns nil exactly when it leaves [reactionsRemoved]
    set: a refused removal, or a paginator with no hosted message, leaves
    the flag clear. *)
Theorem close_nil_iff_removed (p : Paginator) (t : list Event) :
  ret (close p t) = Return None <-> reactionsRemoved (after (close p t)) = true.
Proof.
  unfold close. simpl. destruct (reactionsRemoved p) eqn:Hr; simpl.
  - rewrite Hr. split; reflexivity.
  - destruct (message p); simpl.
    + destruct (MessageReactionsRemoveAll _ _ _ _); simpl; [rewrite Hr|];
        split; intros; reflexivity || discriminate.
    + rewrite Hr. split; discriminate.
Qed.

(** X16.  After a [close] that returned nil, a further [close] does
    nothing: it returns nil, makes no call and leaves the paginator as it
    is. *)
Theorem close_after_success (p : Paginator) (t : list Event) :
  ret (close p t) = Return None ->
  close (after (close p t)) (calls (close p t)) =
    mkResult (after (close p t)) (calls (close p t)) (Return None).
Proof.
  unfold close at 1. simpl. destruct (reactionsRemoved p) eqn:Hr.
  - intros _. unfold close. simpl. rewrite Hr. simpl. rewrite Hr. reflexivity.
  - destruct (message p) as [m|] eqn:Hm; [|discriminate]. simpl.
    destruct (MessageReactionsRemoveAll (s p) t (channelID p) (ID m)) eqn:He; [discriminate|].
    intros _. unfold close. simpl. rewrite Hr, Hm. simpl. rewrite He. reflexivity.
Qed.

Lemma close_after_success_witness :
  let p := running calmSession [1%positive] 0 in
  close (after (close p [])) (calls (close p [])) =
    mkResult (after (close p [])) (calls (close p [])) (Return None).
Proof.
  exact (close_after_success (running calmSession [1%positive] 0) [] eq_refl).
Defined.

(** * Further properties: the life of a paginator *)

Lemma addReactionsLoop_after (p : Paginator) (emojis : list string) :
  forall t, after (addReactionsLoop p t emojis) = p.
Proof.
  induction emojis as [|e rest IH]; intros t; simpl; [reflexivity|].
  destruct (message p); [|reflexivity].
  destruct (MessageReactionAdd _ _ _ _ _); [reflexivity|apply IH].
Qed.

Lemma RunEnter_returned (p : Paginator) (t : list Event) (r : result) :
  RunEnter p t = inl r -> after r = p.
Proof.
  unfold RunEnter. destruct (active p); [intros [= <-]; reflexivity|].
  destruct (len (pages p) =? 0)%Z; [intros [= <-]; reflexivity|].
  destruct (pageAt _ _); [|intros [= <-]; reflexivity].
  destruct (ChannelMessageSendComplex _ _ _ _); [discriminate|].
  intros [= <-]. reflexivity.
Qed.

(** X17.  On every paginator the package can produce, an active paginator
    has pages and a hosted message, and [reactionsRemoved] is set only on a
    paginator that has a hosted message.  So once [Run] waits, no move and
    no [close] can panic on a nil message. *)
Theorem built_invariant (p : Paginator) :
  built p ->
  (active p = true -> pages p <> [] /\ message p <> None) /\
  (reactionsRemoved p = true -> message p <> None).
Proof.
  assert (forall q t,
            ((active q = true -> pages q <> [] /\ message q <> None) /\
             (reactionsRemoved q = true -> message q <> None)) ->
            (active (after (close q t)) = true ->
             pages (after (close q t)) <> [] /\ message (after (close q t)) <> None) /\
            (reactionsRemoved (after (close q t)) = true ->
             message (after (close q t)) <> None)) as Hclose.
  { intros q t [_ Hq]. split; [rewrite close_inactive; discriminate|].
    unfold close. simpl. destruct (reactionsRemoved q) eqn:Hr; simpl.
    - intros _. apply Hq. reflexivity.
    - destruct (message q) eqn:Hm; simpl; [|rewrite Hr; discriminate].
      destruct (MessageReactionsRemoveAll _ _ _ _); simpl;
        rewrite Hm; discriminate. }
  assert (forall q t q' t',
            RunEnter q t = inr (q', t') ->
            (active q' = true -> pages q' <> [] /\ message q' <> None) /\
            (reactionsRemoved q' = true -> message q' <> None)) as Hwait.
  { intros q t q' t'. unfold RunEnter.
    destruct (active q); [discriminate|].
    destruct (Z.eqb_spec (len (pages q)) 0) as [|Hn]; [discriminate|].
    destruct (pageAt _ _); [|discriminate].
    destruct (ChannelMessageSendComplex _ _ _ _); [|discriminate].
    intros [= <- <-]. simpl. split; [|discriminate].
    intros _. split; [|discriminate].
    intros Hp. apply Hn. rewrite Hp. reflexivity. }
  induction 1 as [sess ch u emojis d | v p h e _ IH | p t p' t' _ _ HR | p t _ IH
                 | a p t _ IH | p t _ IH | p t _ IH].
  - simpl. split; discriminate.
  - unfold Add. destruct (v h e); simpl; [exact IH|].
    destruct IH as [IH1 IH2]. split; [|exact IH2].
    intros Ha. destruct (IH1 Ha) as [_ Hm]. split; [|exact Hm].
    intros Happ. apply app_eq_nil in Happ. destruct Happ; discriminate.
  - exact (Hwait p t p' t' HR).
  - unfold Run. destruct (RunEnter p t) as [r|[p' t']] eqn:HR.
    + rewrite (RunEnter_returned p t r HR). exact IH.
    + apply Hclose. exact (Hwait p t p' t' HR).
  - destruct (navigate_step a p t) as (i & new & Ha & _). rewrite Ha. exact IH.
  - unfold addReactions. rewrite addReactionsLoop_after. exact IH.
  - apply Hclose. exact IH.
Qed.

Lemma built_invariant_witness :
  let p := after (navigate Forwards (running calmSession [1%positive; 2%positive] 0) []) in
  (active p = true -> pages p <> [] /\ message p <> None) /\
  (reactionsRemoved p = true -> message p <> None).
Proof.
  apply built_invariant.
  apply built_navigate.
  apply (built_waiting (created calmSession [1%positive; 2%positive]) []
           _ [EvSend "c1" 1%positive (inl sampleMessage)]); [|reflexivity].
  change (created calmSession [1%positive; 2%positive])
    with (fst (Add (fun _ _ => None)
                 (fst (Add (fun _ _ => None)
                         (NewPaginator calmSession "c1" 1%positive sampleEmojis 50000000)
                         sampleHeap 1%positive))
                 sampleHeap 2%positive)).
  apply built_Add. apply built_Add. apply built_New.
Defined.

Lemma AddAll_eq verifyEmbed (h : gmap loc MessageEmbed) (es : list loc) :
  forall p : Paginator,
  AddAll verifyEmbed p h es =
    set_pages p (pages p ++ filter (fun e => verifyEmbed h e = None) es).
Proof.
  induction es as [|e rest IH]; intros p; simpl.
  - rewrite filter_nil, app_nil_r. destruct p. reflexivity.
  - rewrite IH. unfold Add. destruct (verifyEmbed h e) eqn:Hv; simpl.
    + rewrite filter_cons_False by (rewrite Hv; discriminate). reflexivity.
    + rewrite filter_cons_True by exact Hv.
      rewrite <- app_assoc. reflexivity.
Qed.

(** X18.  From construction to the first send.  A new paginator to which a
    list of embeds is added holds exactly the embeds the check accepted, in
    the order given, the refused ones skipped; it is inactive at index 0.
    If one embed at least was accepted, the first call of [Run] is the send
    of the first accepted embed to the channel given at construction. *)
Theorem first_accepted_page_is_sent verifyEmbed (sess : Session) (ch : string) (u : loc)
    (emojis : ControlEmojis) (d : Z) (h : gmap loc MessageEmbed) (es : list loc)
    (e0 : loc) (rest : list loc) :
  filter (fun e => verifyEmbed h e = None) es = e0 :: rest ->
  let p := AddAll verifyEmbed (NewPaginator sess ch u emojis d) h es in
  p = set_pages (NewPaginator sess ch u emojis d) (e0 :: rest) /\
  exists tail,
    calls (Run p []) =
      EvSend ch e0 (ChannelMessageSendComplex sess [] ch e0) :: tail.
Proof.
  intros Hf. simpl. rewrite AddAll_eq, Hf. simpl. split; [reflexivity|].
  unfold Run, RunEnter. simpl.
  destruct (ChannelMessageSendComplex sess [] ch e0) as [msg|text]; simpl.
  - destruct (MessageReactionsRemoveAll _ _ _ _); simpl; eauto.
  - eauto.
Qed.

Lemma first_accepted_page_is_sent_witness :
  let p := AddAll refuseSecond (NewPaginator calmSession "c1" 1%positive sampleEmojis 50)
             sampleHeap [2%positive; 3%positive; 1%positive] in
  p = set_pages (NewPaginator calmSession "c1" 1%positive sampleEmojis 50)
        [3%positive; 1%positive] /\
  exists tail,
    calls (Run p []) =
      EvSend "c1" 3%positive (ChannelMessageSendComplex calmSession [] "c1" 3%positive) :: tail.
Proof.
  exact (first_accepted_page_is_sent refuseSecond calmSession "c1" 1%positive sampleEmojis 50
           sampleHeap [2%positive; 3%positive; 1%positive] 3%positive [1%positive] eq_refl).
Defined.

(** * Further properties: page numbers *)

(** X19.  Numbering the pages twice is numbering them once: on a non-empty
    allocated page sequence a second [setPageNumber] returns nil and leaves
    the heap of embeds exactly as the first left it. *)
Theorem setPageNumber_idempotent (p : Paginator) (h : gmap loc MessageEmbed) :
  pages p <> [] ->
  (forall l, l ∈ pages p -> is_Some (h !! l)) ->
  exists h' : gmap loc MessageEmbed,
    setPageNumber p h = (h', Return None) /\
    setPageNumber p h' = (h', Return None).
Proof.
  intros Hne Hall. unfold setPageNumber.
  destruct (Z.eqb_spec (len (pages p)) 0) as [Hz|_].
  { exfalso. pose proof (len_pos _ Hne). lia. }
  destruct (setFooters_allocated (pageNumberText p) (pages p) h Hall) as (h' & Hrun & Hh').
  exists h'. split; [exact Hrun|].
  destruct (setFooters_allocated (pageNumberText p) (pages p) h') as (h'' & Hrun' & Hh'').
  { intros l Hl. rewrite Hh'. destruct (decide (l ∈ pages p)) as [_|Hn]; [|contradiction].
    destruct (Hall l Hl) as [emb Hemb]. rewrite Hemb. simpl. eauto. }
  rewrite Hrun'. f_equal. apply map_eq. intros l. rewrite Hh'', Hh'.
  destruct (decide (l ∈ pages p)); [|reflexivity].
  destruct (h !! l); reflexivity.
Qed.

Lemma setPageNumber_idempotent_witness :
  let p := running calmSession [1%positive; 2%positive; 1%positive] 0 in
  exists h' : gmap loc MessageEmbed,
    setPageNumber p sampleHeap = (h', Return None) /\
    setPageNumber p h' = (h', Return None).
Proof.
  apply (setPageNumber_idempotent
           (running calmSession [1%positive; 2%positive; 1%positive] 0) sampleHeap).
  - simpl. discriminate.
  - simpl. intros l Hl.
    repeat (apply elem_of_cons in Hl; destruct Hl as [->|Hl]; [vm_compute; eauto|]).
    apply elem_of_nil in Hl. contradiction.
Defined.

Lemma setFooters_missing (text : string) (l : loc) (ps : list loc) :
  forall h : gmap loc MessageEmbed,
  l ∈ ps -> h !! l = None -> snd (setFooters text ps h) = Panic.
Proof.
  induction ps as [|l0 rest IH]; intros h Hin Hl; simpl.
  - apply elem_of_nil in Hin. contradiction.
  - destruct (h !! l0) as [e0|] eqn:H0; [|reflexivity].
    apply elem_of_cons in Hin. destruct Hin as [->|Hin]; [congruence|].
    apply IH; [exact Hin|].
    rewrite lookup_insert_ne; [exact Hl|]. intros ->. congruence.
Qed.

(** X20.  A nil page makes [setPageNumber] panic: if any element of the
    page sequence is not an allocated embed, the call does not return. *)
Theorem setPageNumber_nil_page (p : Paginator) (h : gmap loc MessageEmbed) (l : loc) :
  l ∈ pages p ->
  h !! l = None ->
  snd (setPageNumber p h) = Panic.
Proof.
  intros Hin Hl. unfold setPageNumber.
  destruct (Z.eqb_spec (len (pages p)) 0) as [Hz|_].
  { exfalso. assert (pages p <> []) as Hne
      by (intros E; rewrite E in Hin; apply elem_of_nil in Hin; exact Hin).
    pose proof (len_pos _ Hne). lia. }
  apply (setFooters_missing _ l); assumption.
Qed.

Lemma setPageNumber_nil_page_witness :
  snd (setPageNumber (running calmSession [1%positive; 9%positive] 0) sampleHeap) = Panic.
Proof.
  apply (setPageNumber_nil_page (running calmSession [1%positive; 9%positive] 0)
           sampleHeap 9%positive).
  - simpl. right. left.
  - reflexivity.
Defined.

(** * Further properties: configuration *)

Section ConfigProperties.

Variable Output : Type.
Variable Unmarshal : string -> Output -> Output * option string.
Variable Marshal : Output -> string + string.
Variable writeError : string -> option string.

Local Abbreviation GetConfig := (utilpkg.GetConfig Output Unmarshal Marshal writeError).

(** X21.  [GetConfig] returns nil exactly when the file exists and can be
    read.  In particular a missing file always gives an error, also when
    the default configuration was written. *)
Theorem GetConfig_nil_iff (fs : gmap string utilpkg.File) (path : string) (output : Output) :
  utilpkg.err Output (GetConfig fs path output) = None <->
  exists f, fs !! path = Some f /\ utilpkg.readError f = None.
Proof.
  unfold utilpkg.GetConfig, utilpkg.genConfig.
  destruct (fs !! path) as [f|] eqn:Hf.
  - destruct (utilpkg.readError f) as [e|] eqn:Hr; simpl.
    + split; [discriminate|]. intros (f' & [= <-] & Hr'). congruence.
    + destruct (Unmarshal (utilpkg.data f) output). simpl.
      split; [eauto|reflexivity].
  - split; [|intros (f & Hf' & _); discriminate].
    destruct (Marshal output); [destruct (writeError path)|]; discriminate.
Qed.

(** X22.  Generate, then read.  When the file is missing and both the
    serialization and the write succeed, [GetConfig] reports "generated a
    new default configuration" with the value untouched; called again on
    the files it left, it returns nil with the value [Unmarshal] makes of
    the bytes [Marshal] produced, and changes no file. *)
Theorem GetConfig_generate_then_read (fs : gmap string utilpkg.File) (path : string)
    (output : Output) (serialized : string) :
  fs !! path = None ->
  Marshal output = inl serialized ->
  writeError path = None ->
  let first := GetConfig fs path output in
  utilpkg.err Output first = Some "generated a new default configuration"%string /\
  utilpkg.value Output first = output /\
  GetConfig (utilpkg.files Output first) path output =
    utilpkg.mkOutcome Output (utilpkg.files Output first)
      (fst (Unmarshal serialized output)) None.
Proof.
  intros Hf Hm Hw. cbv zeta. unfold utilpkg.GetConfig, utilpkg.genConfig.
  rewrite Hf, Hm, Hw. simpl. rewrite lookup_insert_eq. simpl.
  destruct (Unmarshal serialized output). repeat split; reflexivity.
Qed.

(** X23.  [GetConfig] writes nothing when the file is there: with the file
    present, readable or not, the files are left as they were.  And when
    the file is missing and [Marshal] fails, the call returns that error
    with files and value as they were: no write is attempted. *)
Theorem GetConfig_no_write (fs : gmap string utilpkg.File) (path : string) (output : Output) :
  (is_Some (fs !! path) -> utilpkg.files Output (GetConfig fs path output) = fs) /\
  (forall e, fs !! path = None -> Marshal output = inr e ->
     GetConfig fs path output = utilpkg.mkOutcome Output fs output (Some e)).
Proof.
  unfold utilpkg.GetConfig, utilpkg.genConfig. split.
  - intros [f Hf]. rewrite Hf.
    destruct (utilpkg.readError f); [reflexivity|].
    destruct (Unmarshal (utilpkg.data f) output). reflexivity.
  - intros e Hf Hm. rewrite Hf, Hm. reflexivity.
Qed.

End ConfigProperties.

Lemma GetConfig_generate_then_read_witness :
  let GetConfig := utilpkg.GetConfig nat rejectingUnmarshal sampleMarshal (fun _ => None) in
  let first := GetConfig sampleFiles "other.yml"%string 7 in
  utilpkg.err nat first = Some "generated a new default configuration"%string /\
  utilpkg.value nat first = 7 /\
  GetConfig (utilpkg.files nat first) "other.yml"%string 7 =
    utilpkg.mkOutcome nat (utilpkg.files nat first)
      (fst (rejectingUnmarshal "0" 7)) None.
Proof.
  exact (GetConfig_generate_then_read nat rejectingUnmarshal sampleMarshal (fun _ => None)
           sampleFiles "other.yml" 7 "0" eq_refl eq_refl eq_refl).
Defined.
